(** * The [manifest-exists] rule of sonar

    A shallow embedding of [src/lib/rules/manifest-exists/manifest-exists.ts]
    and the properties of its two event handlers, [manifestExists]
    (channel [element::link]) and [manifestWasSpecified] (channel
    [traverse::end]).

    The rule keeps one mutable variable, [manifestIsSpecified], in the closure
    built by [create].  Everything else it does is a call to a collaborator:
    [element.getAttribute], [url.parse], [url.resolve], [context.fetchContent],
    [context.report] and [debug].  The embedding threads the variable as state
    and records every collaborator call, in program order, so that statements
    such as "no fetch is attempted" are statements about the recorded calls. *)

From Stdlib Require Import ZArith Ascii String DecimalString.
From stdpp Require Import base option list strings gmap.

Local Open Scope string_scope.
Local Open Scope Z_scope.
Local Open Scope list_scope.

(** ** Data *)

(** A DOM element, as far as the rule can observe it: [getAttribute name] is
    the attribute's value, or [null] ([None]) when the attribute is absent. *)
Record Element : Type := mkElement { attributes : gmap string string }.

(** The payload of an [element::link] event. *)
Record ElementFoundEvent : Type := mkElementFoundEvent {
  element : Element;
  resource : string
}.

(** The part of a parsed [Url] object of Node's [url] module that the rule and
    [url.resolve] look at. *)
Record Url : Type := mkUrl {
  protocol : option string;
  slashes : bool;
  host : option string;
  pathname : string;
  search : string;
  hash : string
}.

(** The integers a JavaScript number holds exactly
    ([Number.MIN_SAFE_INTEGER] to [Number.MAX_SAFE_INTEGER]). *)
Definition safe_integer (n : Z) : bool := Z.abs n <=? 2 ^ 53 - 1.

Class Safe (n : Z) : Prop := is_safe : Is_true (safe_integer n).
#[global] Hint Extern 0 (Safe _) => exact I : typeclass_instances.

(** A JavaScript number, as far as the rule can observe it (its truthiness,
    whether it is 200, and the text it prints as): a safe integer, [-0] being
    [0]; [NaN]; or any other number, that is a non-integer, an infinity or an
    integer beyond the safe range, given by the text [String(x)] of it. *)
Inductive Number : Type :=
  | Integer (n : Z) `{!Safe n}
  | NaN
  | Other (text : string).

(** What [context.fetchContent] resolves to; the rule reads [statusCode] only
    ([number | null]). *)
Record NetworkData : Type := mkNetworkData { statusCode : option Number }.

(** A thrown value or rejection reason. *)
Definition Error : Type := string.

(** How the promise returned by [context.fetchContent] settles. *)
Inductive Settled : Type :=
  | Resolved (response : NetworkData)
  | Rejected (reason : Error).

(** The three arguments of one [context.report] call. *)
Inductive Finding : Type :=
  | mkFinding (resource : option string) (element : option Element) (message : string).

(** One call from the rule to a collaborator. *)
Inductive Call : Type :=
  | getAttribute_call (element : Element) (name : string)
  | url_parse_call (urlString : string)
  | url_resolve_call (from to : string)
  | fetchContent_call (target : string)
  | report_call (finding : Finding)
  | debug_call (message : string).

Global Instance Element_eq_dec : EqDecision Element.
Proof. solve_decision. Defined.
Global Instance Finding_eq_dec : EqDecision Finding.
Proof. solve_decision. Defined.
Global Instance Call_eq_dec : EqDecision Call.
Proof. solve_decision. Defined.

(** ** JavaScript operators used by the rule *)

(** [v === s] for [v : string | null] and a string [s]. *)
Definition strict_equals (v : option string) (s : string) : bool :=
  match v with
  | Some v => String.eqb v s
  | None => false
  end.

(** Truthiness of a [string | null]: [null] and the empty string are falsy. *)
Definition truthy_string (v : option string) : bool :=
  match v with
  | Some EmptyString => false
  | Some _ => true
  | None => false
  end.

(** Truthiness of a [number | null]: [null], [0] and [NaN] are falsy. *)
Definition truthy_number (v : option Number) : bool :=
  match v with
  | Some (Integer n) => negb (n =? 0)
  | Some NaN => false
  | Some (Other _) => true
  | None => false
  end.

(** [v !== n] for [v : number | null] and a safe integer [n]. *)
Definition strict_not_equals (v : option Number) (n : Z) `{!Safe n} : bool :=
  match v with
  | Some (Integer v) => negb (v =? n)
  | Some NaN => true
  | Some (Other _) => true
  | None => true
  end.

(** The string a number takes inside a template literal ([${x}]): for a safe
    integer, its decimal digits, after a minus sign when negative. *)
Definition number_to_string (x : Number) : string :=
  match x with
  | Integer n => NilZero.string_of_int (Z.to_int n)
  | NaN => "NaN"
  | Other text => text
  end.

(** [${v}] for [v : number | null]. *)
Definition template (v : option Number) : string :=
  match v with
  | Some x => number_to_string x
  | None => "null"
  end.

(** ** The monad of handler bodies

    A handler body reads and writes [manifestIsSpecified], calls
    collaborators, and either completes normally or throws. *)

Inductive Completion (A : Type) : Type :=
  | Normal (value : A)
  | Throw (reason : Error).
Arguments Normal {A} value.
Arguments Throw {A} reason.

Definition M (A : Type) : Type := bool -> Completion A * bool * list Call.

Definition ret {A} (a : A) : M A := fun s => (Normal a, s, []).

Definition bind {A B} (c : M A) (k : A -> M B) : M B := fun s =>
  match c s with
  | (Normal a, s1, calls1) =>
      let '(r, s2, calls2) := k a s1 in (r, s2, calls1 ++ calls2)
  | (Throw e, s1, calls1) => (Throw e, s1, calls1)
  end.

Definition throw {A} (e : Error) : M A := fun s => (Throw e, s, []).

(** [try { body } catch (e) { handler e }]. *)
Definition try_catch {A} (body : M A) (handler : Error -> M A) : M A := fun s =>
  match body s with
  | (Normal a, s1, calls1) => (Normal a, s1, calls1)
  | (Throw e, s1, calls1) =>
      let '(r, s2, calls2) := handler e s1 in (r, s2, calls1 ++ calls2)
  end.

Definition read_manifestIsSpecified : M bool := fun s => (Normal s, s, []).
Definition write_manifestIsSpecified (b : bool) : M unit := fun _ => (Normal tt, b, []).

(** A call to a collaborator that returns [result]. *)
Definition call {A} (c : Call) (result : A) : M A := fun s => (Normal result, s, [c]).

(** A call to a collaborator that returns or throws. *)
Definition call_partial {A} (c : Call) (result : Completion A) : M A :=
  fun s => (result, s, [c]).

Declare Scope handler_scope.
Delimit Scope handler_scope with handler.
Notation "'let*' x ':=' c 'in' k" := (bind c (fun x => k))
  (at level 10, x name, c at level 100, k at level 200) : handler_scope.
Notation "c ';;' k" := (bind c (fun _ => k))
  (at level 100, k at level 200, right associativity) : handler_scope.

(** [await p], once [p] has settled: the response, or the rejection thrown. *)
Definition await (p : Settled) : M NetworkData :=
  match p with
  | Resolved response => ret response
  | Rejected reason => throw reason
  end.

(** What an [async] handler hands back to its caller: it ran to its end, or it
    is suspended at [await context.fetchContent(target)] with the rest of its
    body waiting for the fetch to settle. *)
Inductive Promise : Type :=
  | Fulfilled
  | Pending (target : string) (continuation : Settled -> M unit).

(** ** Collaborators *)

Definition getAttribute (e : Element) (name : string) : M (option string) :=
  call (getAttribute_call e name) (attributes e !! name).

Definition report (resource : option string) (element : option Element)
    (message : string) : M unit :=
  call (report_call (mkFinding resource element message)) tt.

Definition debug (message : string) : M unit := call (debug_call message) tt.

(** [await context.fetchContent(target)]: the call is made and the handler
    suspends; [continuation] is the rest of its body.  (A [fetchContent] that
    throws at once is, to the handler, a promise already rejected.) *)
Definition fetchContent (target : string) (continuation : Settled -> M unit) : M Promise :=
  call (fetchContent_call target) (Pending target continuation).

(** Node's [url] module: the rule uses [url.parse] and [url.resolve].  Either
    may throw (Node throws [URIError] on a malformed percent-escape in the
    user information, for one). *)
Class UrlModule : Type := {
  parse : string -> Completion Url;
  resolve : string -> string -> Completion string
}.

Section Rule.

Context {url : UrlModule}.

Definition url_parse (urlString : string) : M Url :=
  call_partial (url_parse_call urlString) (parse urlString).

Definition url_resolve (from to : string) : M string :=
  call_partial (url_resolve_call from to) (resolve from to).

Local Open Scope handler_scope.

(** ** The handlers *)

(** [manifestWasSpecified], the [traverse::end] handler. *)
Definition manifestWasSpecified : M unit :=
  let* manifestIsSpecified := read_manifestIsSpecified in
  if negb manifestIsSpecified then
    report None None "Web app manifest not specified"
  else ret tt.

(** [manifestExists], the [element::link] handler. *)
Definition manifestExists (data : ElementFoundEvent) : M Promise :=
  let element := element data in
  let resource := resource data in
  let* rel := getAttribute element "rel" in
  if strict_equals rel "manifest" then
    let* manifestIsSpecified := read_manifestIsSpecified in
    if manifestIsSpecified then
      report (Some resource) (Some element) "Web app manifest already specified" ;;
      ret Fulfilled
    else
      write_manifestIsSpecified true ;;
      let* manifestHref := getAttribute element "href" in
      match manifestHref with
      | None | Some EmptyString =>
          report (Some resource) (Some element)
            "Web app manifest specified with invalid 'href'" ;;
          ret Fulfilled
      | Some manifestHref =>
          let* parsed := url_parse manifestHref in
          let* manifestURL :=
            if truthy_string (protocol parsed) then ret manifestHref
            else url_resolve resource manifestHref in
          fetchContent manifestURL (fun settled =>
            try_catch
              (let* response := await settled in
               let statusCode := statusCode response in
               if truthy_number statusCode && strict_not_equals statusCode 200 then
                 report (Some resource) (Some element)
                   ("Web app manifest file could not be fetched (status code: "
                      +:+ template statusCode +:+ ")")
               else ret tt)
              (fun e =>
                 debug "Failed to fetch the web app manifest file" ;;
                 report (Some resource) (Some element)
                   "Web app manifest file request failed"))
      end
  else ret Fulfilled.

(** ** Reading the recorded calls *)

(** The findings reported, in order. *)
Definition findings (calls : list Call) : list Finding :=
  omap (fun c => match c with report_call f => Some f | _ => None end) calls.

(** The URLs handed to [context.fetchContent], in order. *)
Definition fetched (calls : list Call) : list string :=
  omap (fun c => match c with fetchContent_call target => Some target | _ => None end) calls.

(** The attribute names read with [getAttribute], in order. *)
Definition attributes_read (calls : list Call) : list string :=
  omap (fun c => match c with getAttribute_call _ name => Some name | _ => None end) calls.

(** The calls to [url.parse] and [url.resolve], in order. *)
Definition url_calls (calls : list Call) : list Call :=
  omap (fun c => match c with url_parse_call _ | url_resolve_call _ _ => Some c | _ => None end) calls.

(** Whether the [element::link] handler treats the element as a manifest link. *)
Definition is_manifest_link (data : ElementFoundEvent) : bool :=
  strict_equals (attributes (element data) !! "rel") "manifest".

(** The URL [manifestExists] computes for a non-empty [href], when
    [url.parse] and, if it is called, [url.resolve] return; what they throw
    otherwise. *)
Definition manifestURL (resource manifestHref : string) : Completion string :=
  match parse manifestHref with
  | Normal parsed =>
      if truthy_string (protocol parsed) then Normal manifestHref
      else resolve resource manifestHref
  | Throw e => Throw e
  end.

(** ** One whole invocation of the [element::link] handler

    The handler body up to the [await], and, when it suspended there, the rest
    of the body run on how the fetch settled. *)
Definition invoke (data : ElementFoundEvent) (settled : Settled) : M unit :=
  let* promise := manifestExists data in
  match promise with
  | Fulfilled => ret tt
  | Pending _ continuation => continuation settled
  end.

(** ** The host *)

(** Modelled from the spec: the scanner that drives the rule is not part of
    the rule's source.  Per the spec (sections 4.1, 5 and 6) it delivers one
    [element::link] event per link element, may deliver further events while a
    fetch is still pending, and signals [traverse::end] once, only after every
    pending handler has settled.  A host state holds the rule's
    [manifestIsSpecified], the handlers suspended at their fetch, the calls
    made so far, and the errors no handler caught. *)
Record Host : Type := mkHost {
  manifestIsSpecified : bool;
  inflight : list (string * (Settled -> M unit));
  calls : list Call;
  unhandled : list Error
}.

Definition start : Host := mkHost false [] [] [].

(** What the host does next: deliver a link element, or let the [n]-th fetch
    in flight settle. *)
Inductive Tick : Type :=
  | element_link (data : ElementFoundEvent)
  | fetch_settles (n : nat).

Definition uncaught {A} (r : Completion A) : list Error :=
  match r with
  | Normal _ => []
  | Throw e => [e]
  end.

Definition emit_element_link (data : ElementFoundEvent) (h : Host) : Host :=
  let '(r, s, cs) := manifestExists data (manifestIsSpecified h) in
  mkHost s
    (match r with
     | Normal (Pending target k) => inflight h ++ [(target, k)]
     | _ => inflight h
     end)
    (calls h ++ cs)
    (unhandled h ++ uncaught r).

Section Network.

(** How the fetch of each URL settles. *)
Variable network : string -> Settled.

Definition settle (n : nat) (h : Host) : Host :=
  match inflight h !! n with
  | None => h
  | Some (target, k) =>
      let '(r, s, cs) := k (network target) (manifestIsSpecified h) in
      mkHost s (delete n (inflight h)) (calls h ++ cs) (unhandled h ++ uncaught r)
  end.

Definition dispatch (h : Host) (t : Tick) : Host :=
  match t with
  | element_link data => emit_element_link data h
  | fetch_settles n => settle n h
  end.

Definition traverse (ticks : list Tick) (h : Host) : Host := foldl dispatch h ticks.

(** The barrier before [traverse::end]: every fetch still pending settles. *)
Definition drain (h : Host) : Host := foldl (fun h _ => settle 0 h) h (inflight h).

Definition emit_traverse_end (h : Host) : Host :=
  let h := drain h in
  let '(r, s, cs) := manifestWasSpecified (manifestIsSpecified h) in
  mkHost s (inflight h) (calls h ++ cs) (unhandled h ++ uncaught r).

(** The evaluation of one document. *)
Definition evaluate (ticks : list Tick) : Host := emit_traverse_end (traverse ticks start).

End Network.

(** The link elements delivered by a schedule. *)
Definition links (ticks : list Tick) : list ElementFoundEvent :=
  omap (fun t => match t with element_link data => Some data | _ => None end) ticks.

(** The manifest links delivered by a schedule. *)
Definition manifest_links (ticks : list Tick) : list ElementFoundEvent :=
  filter (fun data => is_manifest_link data = true) (links ticks).

End Rule.

(** ** Node's [url] module *)

(** Modelled from the spec: [url.parse] and [url.resolve] belong to Node's
    standard library, not to the rule's source.  The spec (section 4.1, step
    5) describes them as follows: a string "parses as an URL with an explicit
    scheme/protocol component" or not, and resolution is "standard base-URL +
    relative-reference resolution: scheme-relative, absolute-path, and
    relative-path references are all supported".  The model follows RFC 3986,
    section 5.2, for references without a scheme, the only ones the rule
    resolves; a reference with a scheme is returned as it is.  As in Node, a
    malformed percent-escape in the user information makes parsing throw
    [URIError]; the user information is otherwise kept, undecoded, in
    [host]. *)
Module NodeUrl.

Definition lower (c : ascii) : ascii :=
  let n := nat_of_ascii c in
  if ((65 <=? n) && (n <=? 90))%nat then ascii_of_nat (n + 32) else c.

(** The characters of a scheme: [[a-z0-9.+-]], case-insensitively. *)
Definition scheme_char (c : ascii) : bool :=
  let n := nat_of_ascii (lower c) in
  (((97 <=? n) && (n <=? 122)) || ((48 <=? n) && (n <=? 57))
   || (n =? 46) || (n =? 43) || (n =? 45))%nat.

(** Splits [s] before its first character satisfying [stop]. *)
Fixpoint break (stop : ascii -> bool) (s : string) : string * string :=
  match s with
  | EmptyString => (EmptyString, EmptyString)
  | String c rest =>
      if stop c then (EmptyString, s)
      else let '(before, after) := break stop rest in (String c before, after)
  end.

Definition is_char (x : ascii) (c : ascii) : bool := Ascii.eqb c x.

Fixpoint map_string (f : ascii -> ascii) (s : string) : string :=
  match s with
  | EmptyString => EmptyString
  | String c rest => String (f c) (map_string f rest)
  end.

(** The scheme of [s] with its colon, lower-cased, and what follows it, when
    [s] starts with one or more scheme characters and a colon. *)
Definition split_protocol (s : string) : option string * string :=
  match break (fun c => negb (scheme_char c)) s with
  | (String c scheme, String ":" rest) =>
      (Some (map_string lower (String c scheme) +:+ ":"), rest)
  | _ => (None, s)
  end.

Definition hex_digit (c : ascii) : bool :=
  let n := nat_of_ascii (lower c) in
  (((48 <=? n) && (n <=? 57)) || ((97 <=? n) && (n <=? 102)))%nat.

(** Whether every [%] of [s] is followed by two hexadecimal digits. *)
Fixpoint well_escaped (s : string) : bool :=
  match s with
  | EmptyString => true
  | String "%" rest =>
      match rest with
      | String h1 (String h2 _) => hex_digit h1 && hex_digit h2 && well_escaped rest
      | _ => false
      end
  | String _ rest => well_escaped rest
  end.

(** The user information of a host: what precedes its last [@], if any. *)
Fixpoint user_information (host : string) : option string :=
  match host with
  | EmptyString => None
  | String c rest =>
      match user_information rest with
      | Some auth => Some (String c auth)
      | None => if is_char "@" c then Some EmptyString else None
      end
  end.

(** Modelled from the spec: the fields of [Url] that [url.parse] fills in. *)
Definition parse_fields (urlString : string) : Url :=
  let '(protocol, rest) := split_protocol urlString in
  let '(rest, hash) := break (is_char "#") rest in
  let '(rest, search) := break (is_char "?") rest in
  match rest with
  | String "/" (String "/" rest) =>
      let '(host, pathname) := break (is_char "/") rest in
      mkUrl protocol true (Some host) pathname search hash
  | _ => mkUrl protocol false None rest search hash
  end.

(** Modelled from the spec: [url.parse]. *)
Definition parse (urlString : string) : Completion Url :=
  let parsed := parse_fields urlString in
  match host parsed ≫= user_information with
  | Some auth =>
      if well_escaped auth then Normal parsed else Throw "URIError: URI malformed"
  | None => Normal parsed
  end.

Definition format (u : Url) : string :=
  default "" (protocol u)
  +:+ (if slashes u then "//" else "")
  +:+ default "" (host u)
  +:+ pathname u +:+ search u +:+ hash u.

(** The segments of a path, split at every slash. *)
Fixpoint segments (path : string) : list string :=
  match path with
  | EmptyString => [EmptyString]
  | String c rest =>
      if is_char "/" c then EmptyString :: segments rest
      else match segments rest with
           | first :: others => String c first :: others
           | [] => [String c EmptyString]
           end
  end.

(** Removes [.] and [..] segments; [kept] holds the output so far, last
    segment first. *)
Fixpoint remove_dot_segments (kept : list string) (input : list string) : list string :=
  match input with
  | [] => reverse kept
  | [last] =>
      if String.eqb last "." then reverse (EmptyString :: kept)
      else if String.eqb last ".." then reverse (EmptyString :: tail kept)
      else reverse (last :: kept)
  | segment :: input =>
      if String.eqb segment "." then remove_dot_segments kept input
      else if String.eqb segment ".." then remove_dot_segments (tail kept) input
      else remove_dot_segments (segment :: kept) input
  end.

Definition normalize (path : string) : string :=
  match segments path with
  | EmptyString :: input =>
      "/" +:+ String.concat "/" (remove_dot_segments [] input)
  | input => String.concat "/" (remove_dot_segments [] input)
  end.

(** The base path up to its last slash, followed by the reference's path. *)
Definition merge (base : Url) (path : string) : string :=
  match reverse (segments (pathname base)) with
  | _ :: directory => String.concat "/" (reverse (path :: directory))
  | [] => path
  end.

(** Modelled from the spec: [url.resolve], for a reference without a scheme:
    scheme-relative, absolute-path, relative-path, or query and fragment
    only. *)
Definition resolve_fields (base reference : Url) (to : string) : string :=
  match protocol reference with
  | Some _ => to
  | None =>
      if slashes reference then
        format (mkUrl (protocol base) true (host reference)
                  (normalize (pathname reference)) (search reference) (hash reference))
      else
        match pathname reference with
        | EmptyString =>
            format (mkUrl (protocol base) (slashes base) (host base) (pathname base)
                      (if String.eqb (search reference) "" then search base
                       else search reference)
                      (hash reference))
        | String "/" _ =>
            format (mkUrl (protocol base) (slashes base) (host base)
                      (normalize (pathname reference)) (search reference) (hash reference))
        | relative =>
            format (mkUrl (protocol base) (slashes base) (host base)
                      (normalize
                         (if slashes base && String.eqb (pathname base) ""
                          then "/" +:+ relative else merge base relative))
                      (search reference) (hash reference))
        end
  end.

(** Modelled from the spec: [url.resolve] parses both its arguments. *)
Definition resolve (from to : string) : Completion string :=
  match parse from, parse to with
  | Normal base, Normal reference => Normal (resolve_fields base reference to)
  | Throw e, _ => Throw e
  | _, Throw e => Throw e
  end.

End NodeUrl.

(** Node's [url] module as the rule's [url]. *)
Definition node_url : UrlModule :=
  {| parse := NodeUrl.parse; resolve := NodeUrl.resolve |}.

(** ** Sample documents *)

Definition page : string := "https://example.com/page.html".

(** A [<link>] element of [page] with the given attributes. *)
Definition link (attrs : list (string * string)) : ElementFoundEvent :=
  mkElementFoundEvent (mkElement (list_to_map attrs)) page.

(** A fetch that succeeds with the status code [code]. *)
Definition status (code : Z) `{!Safe code} : Settled :=
  Resolved (mkNetworkData (Some (Integer code))).

Definition manifest_json : ElementFoundEvent :=
  link [("rel", "manifest"); ("href", "manifest.json")].
Definition cdn_manifest : ElementFoundEvent :=
  link [("rel", "manifest"); ("href", "https://cdn.example.com/site.webmanifest")].
Definition no_href : ElementFoundEvent := link [("rel", "manifest")].
Definition malformed : ElementFoundEvent :=
  link [("rel", "manifest"); ("href", "https://%zz@cdn.example.com/m.json")].
Definition capitalised : ElementFoundEvent :=
  link [("rel", "Manifest"); ("href", "manifest.json")].
Definition stylesheet : ElementFoundEvent :=
  link [("rel", "stylesheet"); ("href", "main.css")].

(** A schedule around one manifest link: other links before and after it,
    and its fetch settling before the traversal ends. *)
Definition around (data : ElementFoundEvent) : list Tick :=
  [element_link stylesheet; fetch_settles 0; element_link data;
   element_link capitalised; fetch_settles 1; fetch_settles 0;
   element_link stylesheet].

(** ** Vocabulary of the statements *)

Section Observations.

Context {url : UrlModule}.

(** What a handler body leaves behind: its completion, [manifestIsSpecified]
    afterwards, and the calls it made. *)
Definition completion {A} (x : Completion A * bool * list Call) : Completion A := x.1.1.
Definition state_after {A} (x : Completion A * bool * list Call) : bool := x.1.2.
Definition calls_of {A} (x : Completion A * bool * list Call) : list Call := x.2.

(** The finding for a fetch that succeeded with status [code]. *)
Definition could_not_be_fetched (data : ElementFoundEvent) (code : option Number) : Finding :=
  mkFinding (Some (resource data)) (Some (element data))
    ("Web app manifest file could not be fetched (status code: "
       +:+ template code +:+ ")").

Definition request_failed (data : ElementFoundEvent) : Finding :=
  mkFinding (Some (resource data)) (Some (element data))
    "Web app manifest file request failed".

Definition invalid_href (data : ElementFoundEvent) : Finding :=
  mkFinding (Some (resource data)) (Some (element data))
    "Web app manifest specified with invalid 'href'".

Definition already_specified (data : ElementFoundEvent) : Finding :=
  mkFinding (Some (resource data)) (Some (element data))
    "Web app manifest already specified".

Definition not_specified : Finding :=
  mkFinding None None "Web app manifest not specified".

(** What the rest of [manifestExists] after the [await] does, for the link
    [data]: it leaves [manifestIsSpecified] alone, completes normally, and
    reports by the way the fetch settled. *)
Definition after_fetch (data : ElementFoundEvent) (settled : Settled) : list Call :=
  match settled with
  | Resolved response =>
      if truthy_number (statusCode response) && strict_not_equals (statusCode response) 200
      then [report_call (could_not_be_fetched data (statusCode response))]
      else []
  | Rejected _ =>
      [debug_call "Failed to fetch the web app manifest file";
       report_call (request_failed data)]
  end.

Definition continues (data : ElementFoundEvent) (k : Settled -> M unit) : Prop :=
  forall settled s, k settled s = (Normal tt, s, after_fetch data settled).

(** The calls of [manifestExists] for a first manifest link with the
    non-empty [href] [manifestHref], up to and including those to the [url]
    module. *)
Definition before_fetch (data : ElementFoundEvent) (manifestHref : string) : list Call :=
  [getAttribute_call (element data) "rel";
   getAttribute_call (element data) "href";
   url_parse_call manifestHref]
  ++ match parse manifestHref with
     | Normal parsed =>
         if truthy_string (protocol parsed) then []
         else [url_resolve_call (resource data) manifestHref]
     | Throw _ => []
     end.

(** The fetches in flight were all started by [manifestExists]. *)
Definition sound (h : Host) : Prop :=
  Forall (fun p => exists data, continues data p.2) (inflight h).

Definition message (f : Finding) : string :=
  match f with mkFinding _ _ message => message end.

(** The messages passed to [debug], in order. *)
Definition debug_messages (calls : list Call) : list string :=
  omap (fun c => match c with debug_call message => Some message | _ => None end) calls.

(** What the first manifest link of a document gets reported: its [href] is
    invalid; or the [url] module throws and nothing is reported; or else
    whatever the way its fetch settles calls for. *)
Definition verdict (network : string -> Settled) (first : ElementFoundEvent) : list Finding :=
  match attributes (element first) !! "href" with
  | None | Some EmptyString => [invalid_href first]
  | Some manifestHref =>
      match manifestURL (resource first) manifestHref with
      | Normal target => findings (after_fetch first (network target))
      | Throw _ => []
      end
  end.

(** The URL fetched for the first manifest link of a document, if any. *)
Definition fetch_target (first : ElementFoundEvent) : list string :=
  match attributes (element first) !! "href" with
  | None | Some EmptyString => []
  | Some manifestHref =>
      match manifestURL (resource first) manifestHref with
      | Normal target => [target]
      | Throw _ => []
      end
  end.

(** What the handler for the first manifest link of a document throws, if
    anything. *)
Definition thrown (first : ElementFoundEvent) : list Error :=
  match attributes (element first) !! "href" with
  | None | Some EmptyString => []
  | Some manifestHref =>
      match manifestURL (resource first) manifestHref with
      | Normal _ => []
      | Throw e => [e]
      end
  end.

(** What the manifest links after the first get reported. *)
Definition duplicates (more : list ElementFoundEvent) : list Finding :=
  fmap already_specified more.

(** The findings for a document with the manifest links [manifests], when the
    first link's verdict comes after [i] of the duplicates. *)
Definition reported_for (network : string -> Settled) (i : nat)
    (manifests : list ElementFoundEvent) : list Finding :=
  match manifests with
  | [] => [not_specified]
  | first :: more =>
      take i (duplicates more) ++ verdict network first ++ drop i (duplicates more)
  end.

Definition requested_for (manifests : list ElementFoundEvent) : list string :=
  match manifests with
  | [] => []
  | first :: _ => fetch_target first
  end.

Definition thrown_for (manifests : list ElementFoundEvent) : list Error :=
  match manifests with
  | [] => []
  | first :: _ => thrown first
  end.

(** An evaluation ended in [h] with these findings, these fetches and these
    uncaught errors, and no fetch left in flight. *)
Definition ends_with (reported : list Finding) (requested : list string)
    (errors : list Error) (h : Host) : Prop :=
  findings (calls h) = reported /\ fetched (calls h) = requested
  /\ unhandled h = errors /\ inflight h = [].

End Observations.

(** * Properties *)

Section Properties.

Context {url : UrlModule}.

(** ** The paths of [manifestExists] *)

Lemma manifestExists_other data s :
  is_manifest_link data = false ->
  manifestExists data s
  = (Normal Fulfilled, s, [getAttribute_call (element data) "rel"]).
Proof.
  unfold is_manifest_link, manifestExists, bind, getAttribute, call.
  intros ->. reflexivity.
Qed.

Lemma manifestExists_duplicate data :
  is_manifest_link data = true ->
  manifestExists data true
  = (Normal Fulfilled, true,
     [getAttribute_call (element data) "rel"; report_call (already_specified data)]).
Proof.
  unfold is_manifest_link, manifestExists, bind, getAttribute, call.
  intros ->. reflexivity.
Qed.

Lemma manifestExists_invalid_href data :
  is_manifest_link data = true ->
  truthy_string (attributes (element data) !! "href") = false ->
  manifestExists data false
  = (Normal Fulfilled, true,
     [getAttribute_call (element data) "rel";
      getAttribute_call (element data) "href";
      report_call (invalid_href data)]).
Proof.
  unfold is_manifest_link, manifestExists, bind, getAttribute, call.
  intros -> Hhref. cbn.
  destruct (attributes (element data) !! "href") as [[|c href]|]; try reflexivity.
  discriminate Hhref.
Qed.

Lemma manifestExists_fetch data manifestHref target :
  is_manifest_link data = true ->
  attributes (element data) !! "href" = Some manifestHref ->
  manifestHref <> "" ->
  manifestURL (resource data) manifestHref = Normal target ->
  exists k,
    manifestExists data false
    = (Normal (Pending target k), true,
       before_fetch data manifestHref ++ [fetchContent_call target])
    /\ continues data k.
Proof.
  unfold is_manifest_link, manifestExists, bind, getAttribute, call.
  intros -> -> Hne. cbn.
  destruct manifestHref as [|c href]; [congruence|].
  unfold before_fetch, manifestURL, url_parse, url_resolve, fetchContent,
    call, call_partial.
  destruct (parse (String c href)) as [parsed|e]; [|discriminate].
  destruct (truthy_string (protocol parsed)) eqn:Hp; cbn.
  - intros [= <-]. eexists; split; [reflexivity|].
    intros [response|reason] s; unfold try_catch, bind, await; cbn;
      try reflexivity.
    destruct (truthy_number (statusCode response)
              && strict_not_equals (statusCode response) 200); reflexivity.
  - intros ->. cbn. eexists; split; [reflexivity|].
    intros [response|reason] s; unfold try_catch, bind, await; cbn;
      try reflexivity.
    destruct (truthy_number (statusCode response)
              && strict_not_equals (statusCode response) 200); reflexivity.
Qed.

Lemma manifestExists_throws data manifestHref e :
  is_manifest_link data = true ->
  attributes (element data) !! "href" = Some manifestHref ->
  manifestHref <> "" ->
  manifestURL (resource data) manifestHref = Throw e ->
  manifestExists data false = (Throw e, true, before_fetch data manifestHref).
Proof.
  unfold is_manifest_link, manifestExists, bind, getAttribute, call.
  intros -> -> Hne. cbn.
  destruct manifestHref as [|c href]; [congruence|].
  unfold before_fetch, manifestURL, url_parse, url_resolve, call_partial.
  destruct (parse (String c href)) as [parsed|e']; [|by intros [= ->]].
  destruct (truthy_string (protocol parsed)) eqn:Hp; cbn; [discriminate|].
  by intros ->.
Qed.

Lemma manifestWasSpecified_spec s :
  manifestWasSpecified s
  = (Normal tt, s, if s then [] else [report_call not_specified]).
Proof. by destruct s. Qed.

(** Whatever the path, the handler sets [manifestIsSpecified] exactly when
    the element is a manifest link, and suspends only on its own
    continuation. *)
Lemma manifestExists_total data s :
  exists r cs,
    manifestExists data s = (r, s || is_manifest_link data, cs)
    /\ match r with
       | Normal (Pending _ k) => continues data k
       | _ => True
       end.
Proof.
  destruct (is_manifest_link data) eqn:Hrel.
  - destruct s.
    + rewrite manifestExists_duplicate by done. by eexists _, _.
    + destruct (attributes (element data) !! "href") as [[|c href]|] eqn:Hhref.
      * rewrite manifestExists_invalid_href by (done || by rewrite Hhref).
        by eexists _, _.
      * destruct (manifestURL (resource data) (String c href)) as [target|e] eqn:Hurl.
        -- destruct (manifestExists_fetch data (String c href) target)
             as (k & -> & Hk); try done.
           by eexists _, _.
        -- rewrite (manifestExists_throws data (String c href) e) by done.
           by eexists _, _.
      * rewrite manifestExists_invalid_href by (done || by rewrite Hhref).
        by eexists _, _.
  - rewrite manifestExists_other by done. rewrite orb_false_r. by eexists _, _.
Qed.

(** ** The host's steps *)

#[local] Arguments manifestWasSpecified : simpl never.
#[local] Arguments manifestExists : simpl never.

Section Schedules.

Variable network : string -> Settled.

Lemma emit_element_link_other data h :
  is_manifest_link data = false ->
  emit_element_link data h
  = mkHost (manifestIsSpecified h) (inflight h)
      (calls h ++ [getAttribute_call (element data) "rel"]) (unhandled h ++ []).
Proof.
  intros Hrel. unfold emit_element_link. by rewrite manifestExists_other.
Qed.

Lemma emit_element_link_duplicate data h :
  is_manifest_link data = true ->
  manifestIsSpecified h = true ->
  emit_element_link data h
  = mkHost true (inflight h)
      (calls h ++ [getAttribute_call (element data) "rel";
                   report_call (already_specified data)])
      (unhandled h ++ []).
Proof.
  intros Hrel Hf. unfold emit_element_link. rewrite Hf.
  by rewrite manifestExists_duplicate.
Qed.

Lemma settle_idle n h : inflight h = [] -> settle network n h = h.
Proof. unfold settle. by intros ->. Qed.

Lemma settle_later t k n h : inflight h = [(t, k)] -> settle network (S n) h = h.
Proof. unfold settle. by intros ->. Qed.

Lemma settle_first data t k h :
  inflight h = [(t, k)] -> continues data k ->
  settle network 0 h
  = mkHost (manifestIsSpecified h) []
      (calls h ++ after_fetch data (network t)) (unhandled h ++ []).
Proof.
  unfold settle. intros -> Hk. cbn. by rewrite Hk.
Qed.

Lemma sound_start : sound start.
Proof. constructor. Qed.

Lemma sound_emit_element_link data h :
  sound h ->
  sound (emit_element_link data h)
  /\ manifestIsSpecified (emit_element_link data h)
     = manifestIsSpecified h || is_manifest_link data.
Proof.
  intros Hin. unfold emit_element_link.
  destruct (manifestExists_total data (manifestIsSpecified h)) as (r & cs & -> & Hr).
  cbn. split; [|done]. unfold sound; cbn.
  destruct r as [[|t k]|e]; [done| |done].
  apply Forall_app; split; [done|]. constructor; [by exists data | constructor].
Qed.

Lemma sound_settle n h :
  sound h ->
  sound (settle network n h)
  /\ manifestIsSpecified (settle network n h) = manifestIsSpecified h.
Proof.
  intros Hin. unfold settle.
  destruct (inflight h !! n) as [[t k]|] eqn:Hn; [|done].
  destruct (Forall_lookup_1 _ _ _ _ Hin Hn) as [data Hk]. cbn in Hk.
  rewrite Hk. cbn. split; [|done]. by apply Forall_delete.
Qed.

Lemma sound_traverse ticks h :
  sound h ->
  sound (traverse network ticks h)
  /\ manifestIsSpecified (traverse network ticks h)
     = manifestIsSpecified h || existsb is_manifest_link (links ticks).
Proof.
  revert h. induction ticks as [|t ticks IH]; intros h Hh; cbn.
  - by rewrite orb_false_r.
  - destruct t as [data|n]; cbn.
    + destruct (sound_emit_element_link data h Hh) as [Hs Hf].
      destruct (IH _ Hs) as [Hs' Hf']. split; [done|].
      fold (traverse network ticks (emit_element_link data h)).
      by rewrite Hf', Hf, orb_assoc.
    + destruct (sound_settle n h Hh) as [Hs Hf].
      destruct (IH _ Hs) as [Hs' Hf']. split; [done|].
      fold (traverse network ticks (settle network n h)).
      by rewrite Hf', Hf.
Qed.

Lemma sound_drain h :
  sound h ->
  sound (drain network h)
  /\ manifestIsSpecified (drain network h) = manifestIsSpecified h.
Proof.
  unfold drain. generalize (inflight h) as l. intros l. revert h.
  induction l as [|x l IH]; intros h Hh; cbn; [done|].
  destruct (sound_settle 0 h Hh) as [Hs Hf].
  destruct (IH _ Hs) as [Hs' Hf']. split; [done|]. by rewrite Hf'.
Qed.

Lemma manifest_links_nil ticks :
  manifest_links ticks = [] <-> existsb is_manifest_link (links ticks) = false.
Proof.
  unfold manifest_links. induction (links ticks) as [|d l IH]; [done|].
  rewrite filter_cons. cbn [existsb]. destruct (is_manifest_link d); cbn.
  - rewrite decide_True by done. split; intros; discriminate.
  - rewrite decide_False by done. done.
Qed.

Lemma evaluate_specified ticks :
  manifestIsSpecified (evaluate network ticks)
  = existsb is_manifest_link (links ticks).
Proof.
  destruct (sound_traverse ticks start sound_start) as [Hs Hf].
  destruct (sound_drain _ Hs) as [_ Hd].
  unfold evaluate, emit_traverse_end. rewrite manifestWasSpecified_spec.
  cbn [manifestIsSpecified]. by rewrite Hd, Hf.
Qed.

Lemma findings_app cs1 cs2 : findings (cs1 ++ cs2) = findings cs1 ++ findings cs2.
Proof. apply omap_app. Qed.

Lemma fetched_app cs1 cs2 : fetched (cs1 ++ cs2) = fetched cs1 ++ fetched cs2.
Proof. apply omap_app. Qed.

Lemma findings_before_fetch data manifestHref :
  findings (before_fetch data manifestHref) = [].
Proof.
  unfold before_fetch. destruct (parse manifestHref) as [parsed|e]; [|done].
  by destruct (truthy_string (protocol parsed)).
Qed.

Lemma fetched_before_fetch data manifestHref :
  fetched (before_fetch data manifestHref) = [].
Proof.
  unfold before_fetch. destruct (parse manifestHref) as [parsed|e]; [|done].
  by destruct (truthy_string (protocol parsed)).
Qed.

Lemma fetched_after_fetch data settled : fetched (after_fetch data settled) = [].
Proof.
  destruct settled as [response|reason]; cbn; [|done].
  by destruct (truthy_number _ && _).
Qed.

Lemma manifest_links_link data ticks :
  manifest_links (element_link data :: ticks)
  = if is_manifest_link data then data :: manifest_links ticks else manifest_links ticks.
Proof.
  unfold manifest_links. simpl links. rewrite filter_cons.
  destruct (is_manifest_link data); [by rewrite decide_True | by rewrite decide_False].
Qed.

Lemma traverse_cons t ticks h :
  traverse network (t :: ticks) h = traverse network ticks (dispatch network h t).
Proof. reflexivity. Qed.

(** ** Evaluations, stage by stage *)

Lemma end_idle h :
  inflight h = [] ->
  ends_with
    (findings (calls h) ++ if manifestIsSpecified h then [] else [not_specified])
    (fetched (calls h)) (unhandled h)
    (emit_traverse_end network h).
Proof.
  intros Hin. unfold emit_traverse_end, drain. rewrite Hin. cbn [foldl].
  rewrite manifestWasSpecified_spec. unfold ends_with; cbn.
  rewrite findings_app, fetched_app, Hin.
  by destruct (manifestIsSpecified h); rewrite ?app_nil_r.
Qed.

Lemma ends_with_eq reported requested errors reported' requested' errors' h :
  ends_with reported requested errors h ->
  reported = reported' -> requested = requested' -> errors = errors' ->
  ends_with reported' requested' errors' h.
Proof. by intros H <- <- <-. Qed.

Ltac tidy :=
  cbn [calls unhandled];
  rewrite ?findings_app, ?fetched_app, ?findings_before_fetch,
    ?fetched_before_fetch, ?fetched_after_fetch;
  cbn; rewrite ?take_0, ?drop_0, ?app_nil_r, <- ?app_assoc; try done.

(** Once a manifest link has been handled and no fetch is pending, every
    further manifest link is a duplicate and nothing more is fetched. *)
Lemma specified_end ticks h :
  manifestIsSpecified h = true -> inflight h = [] ->
  ends_with
    (findings (calls h) ++ duplicates (manifest_links ticks))
    (fetched (calls h)) (unhandled h)
    (emit_traverse_end network (traverse network ticks h)).
Proof.
  revert h. induction ticks as [|t ticks IH]; intros h Hf Hin.
  - pose proof (end_idle h Hin) as He. by rewrite Hf in He.
  - rewrite traverse_cons. destruct t as [d|n]; cbn [dispatch].
    + rewrite manifest_links_link. destruct (is_manifest_link d) eqn:Hrel.
      * rewrite emit_element_link_duplicate by done.
        eapply ends_with_eq; [by apply IH | tidy..].
      * rewrite emit_element_link_other by done.
        eapply ends_with_eq; [by apply IH | tidy..].
    + rewrite settle_idle by done. by apply IH.
Qed.

(** While the first manifest link's fetch is pending, further manifest links
    are duplicates; the verdict is reported when the fetch settles. *)
Lemma pending_end data target ticks h :
  manifestIsSpecified h = true ->
  (exists k, inflight h = [(target, k)] /\ continues data k) ->
  exists i,
    ends_with
      (findings (calls h)
         ++ take i (duplicates (manifest_links ticks))
         ++ findings (after_fetch data (network target))
         ++ drop i (duplicates (manifest_links ticks)))
      (fetched (calls h)) (unhandled h)
      (emit_traverse_end network (traverse network ticks h)).
Proof.
  revert h. induction ticks as [|t ticks IH]; intros h Hf (k & Hin & Hk).
  - exists 0%nat. unfold emit_traverse_end, traverse, drain. cbn [foldl]. rewrite Hin.
    cbn [foldl]. rewrite (settle_first data target k h Hin Hk).
    cbn [manifestIsSpecified calls unhandled inflight].
    rewrite manifestWasSpecified_spec, Hf. unfold ends_with; cbn.
    rewrite !findings_app, !fetched_app, fetched_after_fetch.
    by rewrite !app_nil_r.
  - rewrite traverse_cons. destruct t as [d|n]; cbn [dispatch].
    + rewrite manifest_links_link. destruct (is_manifest_link d) eqn:Hrel.
      * rewrite emit_element_link_duplicate by done.
        edestruct IH as [i Hi]; [| |exists (S i); eapply ends_with_eq; [exact Hi | tidy..]];
          [done | by exists k].
      * rewrite emit_element_link_other by done.
        edestruct IH as [i Hi]; [| |exists i; eapply ends_with_eq; [exact Hi | tidy..]];
          [done | by exists k].
    + destruct n as [|n].
      * rewrite (settle_first data target k h Hin Hk).
        exists 0%nat.
        eapply ends_with_eq; [by apply specified_end | tidy..].
      * rewrite (settle_later target k n h Hin). apply IH; eauto.
Qed.

(** Before any manifest link has arrived. *)
Lemma unspecified_end ticks h :
  manifestIsSpecified h = false -> inflight h = [] ->
  exists i,
    ends_with
      (findings (calls h) ++ reported_for network i (manifest_links ticks))
      (fetched (calls h) ++ requested_for (manifest_links ticks))
      (unhandled h ++ thrown_for (manifest_links ticks))
      (emit_traverse_end network (traverse network ticks h)).
Proof.
  revert h. induction ticks as [|t ticks IH]; intros h Hf Hin.
  - exists 0%nat. pose proof (end_idle h Hin) as He. rewrite Hf in He.
    cbn. by rewrite !app_nil_r.
  - rewrite traverse_cons. destruct t as [d|n]; cbn [dispatch].
    + rewrite manifest_links_link. destruct (is_manifest_link d) eqn:Hrel.
      * unfold emit_element_link. rewrite Hf.
        unfold reported_for, requested_for, thrown_for, verdict, fetch_target, thrown.
        destruct (attributes (element d) !! "href") as [[|c href]|] eqn:Hhref.
        -- rewrite manifestExists_invalid_href by (done || by rewrite Hhref).
           exists 0%nat.
           eapply ends_with_eq; [by apply specified_end | tidy..].
        -- destruct (manifestURL (resource d) (String c href)) as [target|e] eqn:Hurl.
           ++ destruct (manifestExists_fetch d (String c href) target)
                as (k & -> & Hk); try done.
              edestruct (pending_end d target ticks)
                as [i Hi]; [| |exists i; eapply ends_with_eq; [exact Hi | tidy..]];
                [done | exists k; cbn; by rewrite Hin].
           ++ rewrite (manifestExists_throws d (String c href) e) by done.
              exists 0%nat.
              eapply ends_with_eq; [by apply specified_end | tidy..].
        -- rewrite manifestExists_invalid_href by (done || by rewrite Hhref).
           exists 0%nat.
           eapply ends_with_eq; [by apply specified_end | tidy..].
      * rewrite emit_element_link_other by done.
        edestruct IH as [i Hi]; [| |exists i; eapply ends_with_eq; [exact Hi | tidy..]];
          [done | done].
    + rewrite settle_idle by done. by apply IH.
Qed.

End Schedules.

End Properties.

Section Claims.

Context {url : UrlModule}.

#[local] Arguments manifestWasSpecified : simpl never.
#[local] Arguments manifestExists : simpl never.

(** ** Whole invocations *)

Lemma is_manifest_link_true data :
  is_manifest_link data = true <-> attributes (element data) !! "rel" = Some "manifest".
Proof.
  unfold is_manifest_link, strict_equals.
  destruct (attributes (element data) !! "rel") as [rel|]; [|done].
  rewrite String.eqb_eq. split; congruence.
Qed.

Lemma manifest_links_first ticks data more :
  manifest_links ticks = data :: more -> is_manifest_link data = true.
Proof.
  intros Hone.
  assert (Hin : data ∈ manifest_links ticks) by (rewrite Hone; constructor).
  unfold manifest_links in Hin. by apply list_elem_of_filter in Hin as [? _].
Qed.

Lemma invoke_other data settled s :
  is_manifest_link data = false ->
  invoke data settled s = (Normal tt, s, [getAttribute_call (element data) "rel"]).
Proof. intros H. unfold invoke, bind. by rewrite manifestExists_other. Qed.

Lemma invoke_duplicate data settled :
  is_manifest_link data = true ->
  invoke data settled true
  = (Normal tt, true,
     [getAttribute_call (element data) "rel"; report_call (already_specified data)]).
Proof. intros H. unfold invoke, bind. by rewrite manifestExists_duplicate. Qed.

Lemma invoke_invalid_href data settled :
  is_manifest_link data = true ->
  truthy_string (attributes (element data) !! "href") = false ->
  invoke data settled false
  = (Normal tt, true,
     [getAttribute_call (element data) "rel";
      getAttribute_call (element data) "href";
      report_call (invalid_href data)]).
Proof. intros H1 H2. unfold invoke, bind. by rewrite manifestExists_invalid_href. Qed.

Lemma invoke_fetch data manifestHref target settled :
  is_manifest_link data = true ->
  attributes (element data) !! "href" = Some manifestHref ->
  manifestHref <> "" ->
  manifestURL (resource data) manifestHref = Normal target ->
  invoke data settled false
  = (Normal tt, true,
     (before_fetch data manifestHref ++ [fetchContent_call target])
     ++ after_fetch data settled).
Proof.
  intros H1 H2 H3 H4. unfold invoke, bind.
  destruct (manifestExists_fetch data manifestHref target) as (k & -> & Hk); try done.
  by rewrite Hk.
Qed.

Lemma invoke_throws data manifestHref e settled :
  is_manifest_link data = true ->
  attributes (element data) !! "href" = Some manifestHref ->
  manifestHref <> "" ->
  manifestURL (resource data) manifestHref = Throw e ->
  invoke data settled false = (Throw e, true, before_fetch data manifestHref).
Proof.
  intros H1 H2 H3 H4. unfold invoke, bind.
  by rewrite (manifestExists_throws data manifestHref e).
Qed.

Lemma findings_invoke_fetch data manifestHref target settled :
  is_manifest_link data = true ->
  attributes (element data) !! "href" = Some manifestHref ->
  manifestHref <> "" ->
  manifestURL (resource data) manifestHref = Normal target ->
  findings (calls_of (invoke data settled false)) = findings (after_fetch data settled).
Proof.
  intros H1 H2 H3 H4. rewrite (invoke_fetch data manifestHref target) by done.
  unfold calls_of; cbn [snd]. by rewrite !findings_app, findings_before_fetch.
Qed.

Lemma evaluate_from_start network ticks :
  exists i,
    ends_with (reported_for network i (manifest_links ticks))
      (requested_for (manifest_links ticks))
      (thrown_for (manifest_links ticks))
      (evaluate network ticks).
Proof. by apply (unspecified_end network ticks start). Qed.

(** ** The claims *)

(** C2.  When the schedule delivers exactly one manifest link, its [href] is
    present and non-empty, and the fetch of the resolved URL succeeds with
    status 200, the whole evaluation reports no finding: none from the
    [element::link] handler and none from the [traverse::end] handler. *)
Theorem evaluate_one_manifest_200 network ticks data manifestHref target :
  manifest_links ticks = [data] ->
  attributes (element data) !! "href" = Some manifestHref ->
  manifestHref <> "" ->
  manifestURL (resource data) manifestHref = Normal target ->
  network target = status 200 ->
  findings (calls (evaluate network ticks)) = []
  /\ unhandled (evaluate network ticks) = [].
Proof.
  intros Hone Hhref Hne Hurl Hnet.
  destruct (evaluate_from_start network ticks) as (i & -> & _ & -> & _).
  rewrite Hone. unfold reported_for, thrown_for, verdict, thrown, duplicates.
  rewrite Hhref, Hurl, Hnet, fmap_nil, take_nil, drop_nil.
  by destruct manifestHref.
Qed.

(** C3.  After any traversal, the [traverse::end] handler reports exactly one
    finding, (null, null, "Web app manifest not specified"), when no manifest
    link was delivered, and nothing when at least one was, valid or not; in
    the first case this is the only finding of the whole evaluation. *)
Theorem manifestWasSpecified_after_traversal network ticks :
  manifestWasSpecified
    (manifestIsSpecified (drain network (traverse network ticks start)))
  = (Normal tt,
     manifestIsSpecified (drain network (traverse network ticks start)),
     match manifest_links ticks with
     | [] => [report_call (mkFinding None None "Web app manifest not specified")]
     | _ :: _ => []
     end)
  /\ (manifest_links ticks = [] ->
      findings (calls (evaluate network ticks))
      = [mkFinding None None "Web app manifest not specified"]).
Proof.
  split.
  - rewrite manifestWasSpecified_spec.
    destruct (sound_traverse network ticks start sound_start) as [Hs Hf].
    destruct (sound_drain network _ Hs) as [_ Hd].
    rewrite Hd, Hf. cbn [start manifestIsSpecified orb].
    destruct (manifest_links ticks) as [|d l] eqn:Hl.
    + apply manifest_links_nil in Hl. by rewrite Hl.
    + destruct (existsb is_manifest_link (links ticks)) eqn:He; [done|].
      apply manifest_links_nil in He. congruence.
  - intros Hnone.
    destruct (evaluate_from_start network ticks) as (i & -> & _).
    by rewrite Hnone.
Qed.

(** C4.  A manifest link that arrives when [manifestIsSpecified] is already
    true gets exactly one finding, "Web app manifest already specified", and
    the handler returns at once: the only attribute it reads is [rel], and it
    neither parses or resolves a URL nor fetches anything. *)
Theorem manifestExists_already_specified data :
  attributes (element data) !! "rel" = Some "manifest" ->
  manifestExists data true
  = (Normal Fulfilled, true,
     [getAttribute_call (element data) "rel";
      report_call (mkFinding (Some (resource data)) (Some (element data))
                     "Web app manifest already specified")])
  /\ attributes_read (calls_of (manifestExists data true)) = ["rel"]
  /\ url_calls (calls_of (manifestExists data true)) = []
  /\ fetched (calls_of (manifestExists data true)) = [].
Proof.
  intros Hrel%is_manifest_link_true.
  by rewrite manifestExists_duplicate.
Qed.

(** C5.  The first manifest link sets [manifestIsSpecified] whatever its
    [href] is, absent, empty or not; so a traversal whose only manifest link
    has an absent or empty [href] reports the invalid-href finding and nothing
    else: no "Web app manifest not specified" at the end. *)
Theorem manifestExists_specifies_before_href network ticks data :
  manifest_links ticks = [data] ->
  attributes (element data) !! "href" = None
  \/ attributes (element data) !! "href" = Some "" ->
  (forall first,
     attributes (element first) !! "rel" = Some "manifest" ->
     state_after (manifestExists first false) = true)
  /\ findings (calls (evaluate network ticks))
     = [mkFinding (Some (resource data)) (Some (element data))
          "Web app manifest specified with invalid 'href'"]
  /\ manifestIsSpecified (evaluate network ticks) = true.
Proof.
  intros Hone Hhref.
  split; [|split].
  - intros first Hrel%is_manifest_link_true.
    destruct (manifestExists_total first false) as (r & cs & -> & _).
    unfold state_after; cbn. by rewrite Hrel.
  - destruct (evaluate_from_start network ticks) as (i & -> & _).
    rewrite Hone. unfold reported_for, verdict, duplicates.
    rewrite fmap_nil, take_nil, drop_nil.
    by destruct Hhref as [-> | ->].
  - rewrite evaluate_specified.
    destruct (existsb is_manifest_link (links ticks)) eqn:He; [done|].
    apply manifest_links_nil in He. congruence.
Qed.

(** C6.  A first-seen manifest link whose [href] is absent or empty gets
    exactly one finding, "Web app manifest specified with invalid 'href'",
    and the handler returns without calling [url.parse], [url.resolve] or
    [context.fetchContent]. *)
Theorem manifestExists_invalid_href_returns data :
  attributes (element data) !! "rel" = Some "manifest" ->
  attributes (element data) !! "href" = None
  \/ attributes (element data) !! "href" = Some "" ->
  manifestExists data false
  = (Normal Fulfilled, true,
     [getAttribute_call (element data) "rel";
      getAttribute_call (element data) "href";
      report_call (mkFinding (Some (resource data)) (Some (element data))
                     "Web app manifest specified with invalid 'href'")])
  /\ url_calls (calls_of (manifestExists data false)) = []
  /\ fetched (calls_of (manifestExists data false)) = [].
Proof.
  intros Hrel%is_manifest_link_true Hhref.
  rewrite manifestExists_invalid_href; [done..|].
  by destruct Hhref as [-> | ->].
Qed.

(** C8.  When the fetch for a first-seen manifest link with a non-empty
    [href] fails, whatever the reason, the handler catches the failure: it
    completes normally, reports exactly one finding, "Web app manifest file
    request failed", and leaves [manifestIsSpecified] true, so that the
    [traverse::end] handler then reports nothing.  In a whole evaluation in
    which this is the only manifest link, that finding is the only one and no
    error reaches the host. *)
Theorem manifestExists_fetch_failure data manifestHref target reason :
  attributes (element data) !! "rel" = Some "manifest" ->
  attributes (element data) !! "href" = Some manifestHref ->
  manifestHref <> "" ->
  manifestURL (resource data) manifestHref = Normal target ->
  completion (invoke data (Rejected reason) false) = Normal tt
  /\ findings (calls_of (invoke data (Rejected reason) false))
     = [mkFinding (Some (resource data)) (Some (element data))
          "Web app manifest file request failed"]
  /\ state_after (invoke data (Rejected reason) false) = true
  /\ calls_of (manifestWasSpecified (state_after (invoke data (Rejected reason) false))) = []
  /\ forall network ticks,
       manifest_links ticks = [data] ->
       network target = Rejected reason ->
       findings (calls (evaluate network ticks))
       = [mkFinding (Some (resource data)) (Some (element data))
            "Web app manifest file request failed"]
       /\ unhandled (evaluate network ticks) = []
       /\ manifestIsSpecified (evaluate network ticks) = true.
Proof.
  intros Hrel%is_manifest_link_true Hhref Hne Hurl.
  rewrite (invoke_fetch data manifestHref target) by done.
  unfold completion, calls_of, state_after; cbn [fst snd].
  rewrite !findings_app, findings_before_fetch.
  do 4 (split; [done|]).
  intros network ticks Hone Hnet.
  destruct (evaluate_from_start network ticks) as (i & -> & _ & -> & _).
  rewrite Hone. unfold reported_for, thrown_for, verdict, thrown, duplicates.
  rewrite Hhref, Hurl, Hnet, fmap_nil, take_nil, drop_nil.
  split; [by destruct manifestHref|]. split; [by destruct manifestHref|].
  rewrite evaluate_specified.
  destruct (existsb is_manifest_link (links ticks)) eqn:He; [done|].
  apply manifest_links_nil in He. congruence.
Qed.

(** C9.  [manifestIsSpecified] is monotone within a traversal: once a prefix
    of the schedule has set it, it is true after every longer schedule and
    after the [traverse::end] handler; the [traverse::end] handler never
    changes it, and an [element::link] invocation that starts with it true
    ends with it true. *)
Theorem manifestIsSpecified_monotone network before after :
  manifestIsSpecified (traverse network before start) = true ->
  manifestIsSpecified (traverse network (before ++ after) start) = true
  /\ manifestIsSpecified (evaluate network (before ++ after)) = true
  /\ (forall s, state_after (manifestWasSpecified s) = s)
  /\ (forall data settled, state_after (invoke data settled true) = true).
Proof.
  intros Hset.
  destruct (sound_traverse network before start sound_start) as [Hs Hf].
  assert (Hmore : manifestIsSpecified (traverse network (before ++ after) start) = true).
  { unfold traverse. rewrite foldl_app.
    destruct (sound_traverse network after _ Hs) as [_ Hf'].
    unfold traverse in Hf', Hset. by rewrite Hf', Hset. }
  repeat split.
  - done.
  - destruct (sound_traverse network (before ++ after) start sound_start) as [Hs' _].
    destruct (sound_drain network _ Hs') as [_ Hd].
    unfold evaluate, emit_traverse_end. rewrite manifestWasSpecified_spec. cbn.
    by rewrite Hd.
  - intros s. by rewrite manifestWasSpecified_spec.
  - intros data settled. destruct (is_manifest_link data) eqn:Hrel.
    + by rewrite invoke_duplicate.
    + by rewrite invoke_other.
Qed.

(** C10.  One invocation of the [element::link] handler, for any event, any
    value of [manifestIsSpecified] and any way the fetch may settle, reports
    at most one finding, also when it throws; when [rel] is not exactly
    "manifest" it completes normally, reports nothing, fetches nothing and
    leaves [manifestIsSpecified] as it was. *)
Theorem manifestExists_at_most_one_finding data settled s :
  (length (findings (calls_of (invoke data settled s))) <= 1)%nat
  /\ (attributes (element data) !! "rel" <> Some "manifest" ->
      completion (invoke data settled s) = Normal tt
      /\ findings (calls_of (invoke data settled s)) = []
      /\ fetched (calls_of (invoke data settled s)) = []
      /\ state_after (invoke data settled s) = s).
Proof.
  destruct (is_manifest_link data) eqn:Hrel.
  - assert (Hyes := proj1 (is_manifest_link_true data) Hrel).
    split; [|done]. destruct s.
    + rewrite invoke_duplicate by done. cbn. lia.
    + destruct (attributes (element data) !! "href") as [[|c href]|] eqn:Hhref.
      * rewrite invoke_invalid_href by (done || by rewrite Hhref). cbn. lia.
      * destruct (manifestURL (resource data) (String c href)) as [target|e] eqn:Hurl.
        -- rewrite (findings_invoke_fetch data (String c href) target) by done.
           destruct settled as [response|reason]; cbn; [|lia].
           destruct (truthy_number _ && _); cbn; lia.
        -- rewrite (invoke_throws data (String c href) e) by done.
           unfold calls_of; cbn [snd]. rewrite findings_before_fetch. cbn. lia.
      * rewrite invoke_invalid_href by (done || by rewrite Hhref). cbn. lia.
  - rewrite invoke_other by done. cbn. repeat split; lia.
Qed.

End Claims.

(** * Further properties *)

Section AnySchedule.

Context {url : UrlModule}.
Variable network : string -> Settled.

Lemma reported_for_permutation i manifests :
  reported_for network i manifests ≡ₚ reported_for network 0 manifests.
Proof.
  destruct manifests as [|first more]; [done|]. unfold reported_for.
  rewrite take_0, drop_0. cbn [app].
  rewrite Permutation_app_swap_app. by rewrite take_drop.
Qed.

Lemma verdict_cases first :
  verdict network first = []
  \/ verdict network first = [invalid_href first]
  \/ verdict network first = [request_failed first]
  \/ exists code, verdict network first = [could_not_be_fetched first code].
Proof.
  unfold verdict.
  destruct (attributes (element first) !! "href") as [[|c href]|]; [by auto| |by auto].
  destruct (manifestURL _ _) as [target|e]; [|by auto].
  destruct (network target) as [response|reason]; cbn; [|by auto].
  destruct (truthy_number _ && _); cbn; eauto.
Qed.

Lemma verdict_length first : (length (verdict network first) <= 1)%nat.
Proof.
  destruct (verdict_cases first) as [-> | [-> | [-> | [code ->]]]]; cbn; lia.
Qed.

Lemma filter_duplicates more :
  filter (fun f => message f = "Web app manifest already specified") (duplicates more)
  = duplicates more.
Proof.
  induction more as [|d more IH]; [done|]. unfold duplicates in *.
  rewrite fmap_cons, filter_cons_True by done. by f_equal.
Qed.

Lemma filter_verdict first :
  filter (fun f => message f = "Web app manifest already specified")
    (verdict network first) = [].
Proof.
  destruct (verdict_cases first) as [-> | [-> | [-> | [code ->]]]]; [done| | |];
    by rewrite filter_cons_False.
Qed.

Lemma evaluate_shape ticks :
  exists i,
    findings (calls (evaluate network ticks))
    = match manifest_links ticks with
      | [] => [not_specified]
      | first :: more =>
          take i (fmap already_specified more)
          ++ verdict network first
          ++ drop i (fmap already_specified more)
      end.
Proof.
  destruct (evaluate_from_start network ticks) as (i & H1 & _).
  by exists i.
Qed.

(** ** Whole evaluations, under every schedule *)

(** X1.  Whatever the schedule, an evaluation reports "not specified" alone
    when no manifest link was delivered; otherwise it reports the first
    manifest link's verdict and, for every later manifest link, one "already
    specified", these in document order, the verdict coming after some number
    [i] of them.  The only error that reaches the host is the one the [url]
    module throws, if it does, for the first manifest link. *)
Theorem evaluate_reports ticks :
  exists i,
    findings (calls (evaluate network ticks))
    = match manifest_links ticks with
      | [] => [mkFinding None None "Web app manifest not specified"]
      | first :: more =>
          take i (fmap already_specified more)
          ++ verdict network first
          ++ drop i (fmap already_specified more)
      end
    /\ unhandled (evaluate network ticks)
       = match manifest_links ticks with
         | [] => []
         | first :: _ => thrown first
         end.
Proof.
  destruct (evaluate_from_start network ticks) as (i & H1 & _ & H3 & _).
  exists i. by split.
Qed.

(** X3.  Whatever the schedule, an evaluation fetches at most once: the URL
    computed for the first manifest link, when its [href] is non-empty and the
    [url] module returns; nothing when there is no manifest link, the first
    one has no usable [href], or the [url] module throws on it. *)
Theorem evaluate_fetches_first_manifest_only ticks :
  fetched (calls (evaluate network ticks))
  = match manifest_links ticks with
    | [] => []
    | first :: _ =>
        match attributes (element first) !! "href" with
        | None | Some EmptyString => []
        | Some manifestHref =>
            match manifestURL (resource first) manifestHref with
            | Normal target => [target]
            | Throw _ => []
            end
        end
    end.
Proof.
  by destruct (evaluate_from_start network ticks) as (i & _ & H2 & _).
Qed.

(** X4.  Whatever the schedule, the "already specified" findings of an
    evaluation are exactly one per manifest link after the first, in document
    order. *)
Theorem evaluate_reports_every_duplicate ticks :
  filter (fun f => message f = "Web app manifest already specified")
    (findings (calls (evaluate network ticks)))
  = fmap already_specified (tail (manifest_links ticks)).
Proof.
  destruct (evaluate_shape ticks) as (i & ->).
  destruct (manifest_links ticks) as [|first more]; [done|].
  rewrite !filter_app, filter_verdict. cbn [app tail].
  rewrite <- filter_app, take_drop. apply filter_duplicates.
Qed.

(** X5.  Whatever the schedule, "Web app manifest not specified" is among the
    findings of an evaluation exactly when no manifest link was delivered. *)
Theorem evaluate_not_specified_iff ticks :
  mkFinding None None "Web app manifest not specified"
    ∈ findings (calls (evaluate network ticks))
  <-> manifest_links ticks = [].
Proof.
  destruct (evaluate_shape ticks) as (i & ->).
  destruct (manifest_links ticks) as [|first more]; [split; [done | constructor]|].
  split; [|done]. intros Hin. exfalso.
  assert (Hdup : forall l : list ElementFoundEvent,
             mkFinding None None "Web app manifest not specified"
               ∈ already_specified <$> l -> False).
  { intros l (d & Hd & _)%list_elem_of_fmap. discriminate Hd. }
  rewrite !elem_of_app in Hin. destruct Hin as [Hin | [Hin | Hin]].
  - apply (Hdup more). by apply (subseteq_take i).
  - destruct (verdict_cases first) as [H | [H | [H | [code H]]]];
      rewrite H in Hin; by apply list_elem_of_singleton in Hin || by inversion Hin.
  - apply (Hdup more). by apply (subseteq_drop i).
Qed.

(** X6.  Whatever the schedule, a document without a manifest link gets
    exactly one finding, and a document with [n >= 1] manifest links gets
    [n - 1] or [n]. *)
Theorem evaluate_finding_count ticks :
  match manifest_links ticks with
  | [] => length (findings (calls (evaluate network ticks))) = 1%nat
  | _ :: more =>
      (length more <= length (findings (calls (evaluate network ticks)))
       <= S (length more))%nat
  end.
Proof.
  destruct (evaluate_shape ticks) as (i & ->).
  destruct (manifest_links ticks) as [|first more]; [done|].
  pose proof (verdict_length first) as Hv.
  assert (Hlen : (length (take i (already_specified <$> more))
                  + length (drop i (already_specified <$> more)) = length more)%nat).
  { rewrite <- length_app, take_drop. apply length_fmap. }
  rewrite !length_app. lia.
Qed.

(** X7.  An evaluation reports nothing exactly when the document has one
    manifest link, its [href] is non-empty, and either the [url] module
    throws on it, or the fetch of its URL succeeds with a status code that is
    null, 0, [NaN] or 200. *)
Theorem evaluate_silent_iff ticks :
  findings (calls (evaluate network ticks)) = []
  <-> exists first manifestHref,
        manifest_links ticks = [first]
        /\ attributes (element first) !! "href" = Some manifestHref
        /\ manifestHref <> ""
        /\ match manifestURL (resource first) manifestHref with
           | Throw _ => True
           | Normal target =>
               exists response,
                 network target = Resolved response
                 /\ (statusCode response = None
                     \/ statusCode response = Some NaN
                     \/ exists n (safe : Safe n),
                          statusCode response = Some (Integer n)
                          /\ (n = 0 \/ n = 200))
           end.
Proof.
  destruct (evaluate_shape ticks) as (i & ->).
  destruct (manifest_links ticks) as [|first more].
  { split; [done|]. by intros (? & ? & ? & _). }
  split.
  - intros Hnil.
    apply app_eq_nil in Hnil as [Htake Hnil]. apply app_eq_nil in Hnil as [Hv Hdrop].
    assert (Hmore : more = []).
    { apply (fmap_nil_inv already_specified).
      by rewrite <- (take_drop i (already_specified <$> more)), Htake, Hdrop. }
    subst more. unfold verdict in Hv.
    destruct (attributes (element first) !! "href") as [[|c href]|] eqn:Hhref;
      [done| |done].
    exists first, (String c href). do 3 (split; [done|]).
    destruct (manifestURL _ _) as [target|e]; [|done].
    destruct (network target) as [response|reason] eqn:Hnet; [|done].
    exists response. split; [done|].
    cbn in Hv. destruct response as [[[n safe| |text]|]]; cbn in *; [|by auto|done|by auto].
    right; right. exists n, safe. split; [done|].
    destruct (Z.eqb_spec n 0); [by auto|].
    destruct (Z.eqb_spec n 200); [by auto|]. done.
  - intros (d & href & [= -> ->] & Hhref & Hne & Hcase).
    rewrite fmap_nil, take_nil, drop_nil, app_nil_r. cbn [app]. unfold verdict.
    rewrite Hhref. destruct href; [done|].
    destruct (manifestURL _ _) as [target|e]; [|done].
    destruct Hcase as (response & -> & Hcode). cbn.
    destruct Hcode as [-> | [-> | (n & safe & -> & [-> | ->])]]; reflexivity.
Qed.

(** X2.  When the fetch settles does not change what is reported: two
    schedules that deliver the same link elements in the same order report
    the same findings, up to their order. *)
Theorem evaluate_schedule_independent ticks1 ticks2 :
  links ticks1 = links ticks2 ->
  findings (calls (evaluate network ticks1))
  ≡ₚ findings (calls (evaluate network ticks2)).
Proof.
  intros Hlinks.
  destruct (evaluate_from_start network ticks1) as (i1 & -> & _).
  destruct (evaluate_from_start network ticks2) as (i2 & -> & _).
  unfold manifest_links. rewrite Hlinks.
  by rewrite (reported_for_permutation i1), (reported_for_permutation i2).
Qed.

(** X13.  The handlers never reset [manifestIsSpecified], so a rule instance
    serves one document: if it is run on a second document after one that had
    a manifest link, every manifest link of the second document is reported as
    already specified, in document order, nothing is fetched for it and "not
    specified" is not reported. *)
Theorem rule_instance_serves_one_document ticks1 ticks2 :
  manifest_links ticks1 <> [] ->
  findings (calls (emit_traverse_end network
                     (traverse network ticks2 (evaluate network ticks1))))
  = findings (calls (evaluate network ticks1))
    ++ fmap already_specified (manifest_links ticks2)
  /\ fetched (calls (emit_traverse_end network
                       (traverse network ticks2 (evaluate network ticks1))))
     = fetched (calls (evaluate network ticks1)).
Proof.
  intros Hsome.
  destruct (evaluate_from_start network ticks1) as (i & _ & _ & _ & Hin).
  destruct (specified_end network ticks2 (evaluate network ticks1)) as (H1 & H2 & _);
    try done.
  rewrite evaluate_specified.
  destruct (existsb is_manifest_link (links ticks1)) eqn:He; [done|].
  by apply manifest_links_nil in He.
Qed.

End AnySchedule.

(** ** Single invocations, call by call *)

Section Invocations.

Context {url : UrlModule}.

(** The paths of an invocation: not a manifest link; a duplicate; a first
    manifest link without a usable [href]; a first manifest link that is
    fetched; a first manifest link on which the [url] module throws. *)
Ltac invoke_paths data settled s :=
  let Hrel := fresh "Hrel" in
  let Hhref := fresh "Hhref" in
  let Hurl := fresh "Hurl" in
  destruct (is_manifest_link data) eqn:Hrel;
  [ destruct s;
    [ rewrite (invoke_duplicate data settled) by done
    | destruct (attributes (element data) !! "href") as [[|? ?]|] eqn:Hhref;
      [ rewrite (invoke_invalid_href data settled) by (done || by rewrite Hhref)
      | match goal with
        | Hhref : _ = Some ?h |- _ =>
            destruct (manifestURL (resource data) h) eqn:Hurl;
            [ erewrite (invoke_fetch data h _ settled) by done
            | erewrite (invoke_throws data h _ settled) by done ]
        end
      | rewrite (invoke_invalid_href data settled) by (done || by rewrite Hhref) ] ]
  | rewrite (invoke_other data settled s) by done ].

(** X8.  After the [await], the handler neither reads nor writes
    [manifestIsSpecified]: whenever an invocation suspends on a fetch,
    whatever the flag's value when the fetch settles, the rest of the body
    completes normally, leaves it as it is, and makes the same calls. *)
Theorem manifestExists_continuation_ignores_state data s0 target k :
  completion (manifestExists data s0) = Normal (Pending target k) ->
  forall settled s,
    completion (k settled s) = Normal tt
    /\ state_after (k settled s) = s
    /\ forall s', calls_of (k settled s) = calls_of (k settled s').
Proof.
  intros Hsuspended settled s.
  destruct (manifestExists_total data s0) as (r & cs & Hrun & Hk).
  rewrite Hrun in Hsuspended. unfold completion in Hsuspended; cbn in Hsuspended.
  subst r. unfold continues in Hk.
  rewrite Hk. repeat split. intros s'. by rewrite Hk.
Qed.

(** X9.  An invocation reads the attribute [rel], and after it [href] only
    for a manifest link that arrives while [manifestIsSpecified] is false; it
    reads no other attribute. *)
Theorem manifestExists_attributes_read data settled s :
  attributes_read (calls_of (invoke data settled s))
  = if is_manifest_link data && negb s then ["rel"; "href"] else ["rel"].
Proof.
  assert (Hafter : attributes_read (after_fetch data settled) = []).
  { destruct settled as [response|reason]; cbn; [|done].
    by destruct (truthy_number _ && _). }
  assert (Hbefore : forall h, attributes_read (before_fetch data h) = ["rel"; "href"]).
  { intros h. unfold before_fetch. destruct (parse h) as [parsed|e]; [|done].
    by destruct (truthy_string _). }
  invoke_paths data settled s; unfold calls_of; cbn [snd andb negb]; try done.
  unfold attributes_read in *. by rewrite !omap_app, Hafter, Hbefore.
Qed.

(** X10.  [url.parse] is called once, on the [href], only for a first
    manifest link with a non-empty [href]; [url.resolve] is called after it,
    on the resource and the [href], only when [url.parse] returned and the
    parsed [href] has no protocol.  No other invocation calls the [url]
    module. *)
Theorem manifestExists_url_calls data settled s :
  url_calls (calls_of (invoke data settled s))
  = if is_manifest_link data && negb s then
      match attributes (element data) !! "href" with
      | None | Some EmptyString => []
      | Some manifestHref =>
          url_parse_call manifestHref
          :: match parse manifestHref with
             | Normal parsed =>
                 if truthy_string (protocol parsed) then []
                 else [url_resolve_call (resource data) manifestHref]
             | Throw _ => []
             end
      end
    else [].
Proof.
  assert (Hafter : url_calls (after_fetch data settled) = []).
  { destruct settled as [response|reason]; cbn; [|done].
    by destruct (truthy_number _ && _). }
  assert (Hbefore : forall h,
             url_calls (before_fetch data h)
             = url_parse_call h
               :: match parse h with
                  | Normal parsed =>
                      if truthy_string (protocol parsed) then []
                      else [url_resolve_call (resource data) h]
                  | Throw _ => []
                  end).
  { intros h. unfold before_fetch. destruct (parse h) as [parsed|e]; [|done].
    by destruct (truthy_string _). }
  invoke_paths data settled s; unfold calls_of; cbn [snd andb negb]; try done.
  all: unfold url_calls in *; rewrite ?omap_app, ?Hafter, ?Hbefore; cbn;
    by rewrite ?app_nil_r.
Qed.

(** X11.  [debug] is called, once, exactly when the fetch started for a first
    manifest link is rejected; it is never called when no fetch was started
    or when the fetch succeeds. *)
Theorem manifestExists_debug_iff_rejected data settled s :
  debug_messages (calls_of (invoke data settled s))
  = match settled with
    | Rejected _ =>
        if is_manifest_link data && negb s then
          match fetch_target data with
          | [] => []
          | _ :: _ => ["Failed to fetch the web app manifest file"]
          end
        else []
    | Resolved _ => []
    end.
Proof.
  assert (Hbefore : forall h, debug_messages (before_fetch data h) = []).
  { intros h. unfold before_fetch. destruct (parse h) as [parsed|e]; [|done].
    by destruct (truthy_string _). }
  unfold fetch_target.
  invoke_paths data settled s; unfold calls_of; cbn [snd andb negb];
    rewrite ?Hurl; try by destruct settled.
  unfold debug_messages in *. rewrite !omap_app, Hbefore.
  destruct settled as [response|reason]; cbn; [|done].
  by destruct (truthy_number _ && _).
Qed.

(** X12.  Every finding an invocation reports carries the event's resource
    and element, and is one of: already specified; invalid [href]; request
    failed; could not be fetched, with the status code the fetch succeeded
    with, which is then truthy (neither 0 nor [NaN]) and not 200. *)
Theorem manifestExists_findings_located data settled s f :
  f ∈ findings (calls_of (invoke data settled s)) ->
  f = mkFinding (Some (resource data)) (Some (element data)) (message f)
  /\ (f = already_specified data
      \/ f = invalid_href data
      \/ f = request_failed data
      \/ exists code,
           settled = Resolved (mkNetworkData (Some code))
           /\ truthy_number (Some code) = true
           /\ strict_not_equals (Some code) 200 = true
           /\ f = could_not_be_fetched data (Some code)).
Proof.
  invoke_paths data settled s; unfold calls_of; cbn [snd];
    rewrite ?findings_app, ?findings_before_fetch; cbn [app].
  - cbn. intros ->%list_elem_of_singleton. auto.
  - cbn. intros ->%list_elem_of_singleton. auto.
  - destruct settled as [[[code|]]|reason]; unfold after_fetch; cbn [statusCode].
    + destruct (truthy_number (Some code)) eqn:Ht; cbn [andb];
        [|by intros ?%elem_of_nil].
      destruct (strict_not_equals (Some code) 200) eqn:Hn;
        [|by intros ?%elem_of_nil].
      intros ->%list_elem_of_singleton. split; [done|]. do 3 right. by exists code.
    + by intros ?%elem_of_nil.
    + intros ->%list_elem_of_singleton. auto.
  - by intros ?%elem_of_nil.
  - cbn. intros ->%list_elem_of_singleton. auto.
  - cbn. by intros ?%elem_of_nil.
Qed.

(** X14.  How a successful fetch for a first-seen manifest link is read: a
    status code that is a safe integer other than 0 and 200 is reported once,
    as "Web app manifest file could not be fetched (status code: <code>)"
    with the code's decimal digits (for 404: "... (status code: 404)"), and
    so is any number that is not a safe integer or [NaN], with the text it
    prints as; a status code that is null, 0, [NaN] or 200 is not reported. *)
Theorem manifestExists_status_code data manifestHref target :
  attributes (element data) !! "rel" = Some "manifest" ->
  attributes (element data) !! "href" = Some manifestHref ->
  manifestHref <> "" ->
  manifestURL (resource data) manifestHref = Normal target ->
  (forall code (safe : Safe code), code <> 0 -> code <> 200 ->
     findings (calls_of (invoke data (status code) false))
     = [mkFinding (Some (resource data)) (Some (element data))
          ("Web app manifest file could not be fetched (status code: "
             +:+ NilZero.string_of_int (Z.to_int code) +:+ ")")])
  /\ findings (calls_of (invoke data (status 404) false))
     = [mkFinding (Some (resource data)) (Some (element data))
          "Web app manifest file could not be fetched (status code: 404)"]
  /\ (forall text,
        findings (calls_of (invoke data (Resolved (mkNetworkData (Some (Other text)))) false))
        = [mkFinding (Some (resource data)) (Some (element data))
             ("Web app manifest file could not be fetched (status code: "
                +:+ text +:+ ")")])
  /\ findings (calls_of (invoke data (Resolved (mkNetworkData None)) false)) = []
  /\ findings (calls_of (invoke data (Resolved (mkNetworkData (Some NaN))) false)) = []
  /\ findings (calls_of (invoke data (status 0) false)) = []
  /\ findings (calls_of (invoke data (status 200) false)) = [].
Proof.
  intros Hrel%is_manifest_link_true Hhref Hne Hurl.
  assert (Hrun : forall settled,
             findings (calls_of (invoke data settled false))
             = findings (after_fetch data settled)).
  { intros settled. by apply (findings_invoke_fetch data manifestHref target). }
  split; [|by rewrite !Hrun].
  intros code safe H0 H200. rewrite Hrun. cbn.
  destruct (Z.eqb_spec code 0); [done|]. destruct (Z.eqb_spec code 200); done.
Qed.

End Invocations.

(** ** Claims about concrete inputs, and instances of the theorems *)

(** C1.  The claim fails on the code at status code 0: a fetch that succeeds
    with 0, which is non-null and not 200, is not reported, and neither is one
    that succeeds with [NaN]; the test at line 87 is for truthiness where the
    comment above it speaks of a status code that is not null. *)
Theorem status_code_zero_not_reported :
  attributes (element manifest_json) !! "rel" = Some "manifest"
  /\ attributes (element manifest_json) !! "href" = Some "manifest.json"
  /\ manifestURL (url := node_url) (resource manifest_json) "manifest.json"
     = Normal "https://example.com/manifest.json"
  /\ statusCode (mkNetworkData (Some (Integer 0))) <> None
  /\ findings (calls_of (invoke (url := node_url) manifest_json (status 0) false)) = []
  /\ findings (calls_of (invoke (url := node_url) manifest_json (status 0) false))
     <> [mkFinding (Some (resource manifest_json)) (Some (element manifest_json))
           "Web app manifest file could not be fetched (status code: 0)"]
  /\ findings (calls_of (invoke (url := node_url) manifest_json
                           (Resolved (mkNetworkData (Some NaN))) false)) = [].
Proof. repeat split; (reflexivity || discriminate). Qed.




Lemma evaluate_one_manifest_200_witness :
  manifest_links (around manifest_json) = [manifest_json]
  /\ findings (calls (evaluate (url := node_url) (fun _ => status 200) (around manifest_json))) = []
  /\ unhandled (evaluate (url := node_url) (fun _ => status 200) (around manifest_json)) = [].
Proof.
  split; [reflexivity|].
  apply (evaluate_one_manifest_200 (url := node_url) (fun _ => status 200)
           (around manifest_json) manifest_json "manifest.json"
           "https://example.com/manifest.json");
    (reflexivity || discriminate).
Defined.

Lemma manifestWasSpecified_after_traversal_witness :
  manifest_links [element_link stylesheet; fetch_settles 0; element_link capitalised] = []
  /\ findings
       (calls
          (evaluate (url := node_url) (fun _ => status 200)
             [element_link stylesheet; fetch_settles 0; element_link capitalised]))
     = [mkFinding None None "Web app manifest not specified"].
Proof.
  split; [reflexivity|].
  apply (proj2 (manifestWasSpecified_after_traversal (url := node_url)
                  (fun _ => status 200)
                  [element_link stylesheet; fetch_settles 0; element_link capitalised])).
  reflexivity.
Defined.

Lemma manifestExists_already_specified_witness :
  attributes_read (calls_of (manifestExists (url := node_url) no_href true)) = ["rel"]
  /\ findings (calls_of (manifestExists (url := node_url) manifest_json true))
     = [mkFinding (Some page) (Some (element manifest_json))
          "Web app manifest already specified"].
Proof.
  split.
  - apply (manifestExists_already_specified (url := node_url) no_href). reflexivity.
  - destruct (manifestExists_already_specified (url := node_url) manifest_json)
      as [-> _]; reflexivity.
Defined.

Lemma manifestExists_specifies_before_href_witness :
  manifest_links (around no_href) = [no_href]
  /\ findings (calls (evaluate (url := node_url) (fun _ => status 200) (around no_href)))
     = [mkFinding (Some page) (Some (element no_href))
          "Web app manifest specified with invalid 'href'"].
Proof.
  split; [reflexivity|].
  apply (manifestExists_specifies_before_href (url := node_url) (fun _ => status 200)
           (around no_href) no_href); [reflexivity | left; reflexivity].
Defined.

Lemma manifestExists_invalid_href_returns_witness :
  fetched (calls_of (manifestExists (url := node_url)
                       (link [("rel", "manifest"); ("href", "")]) false)) = []
  /\ url_calls (calls_of (manifestExists (url := node_url) no_href false)) = [].
Proof.
  split.
  - apply (manifestExists_invalid_href_returns (url := node_url)
             (link [("rel", "manifest"); ("href", "")]));
      [reflexivity | right; reflexivity].
  - apply (manifestExists_invalid_href_returns (url := node_url) no_href);
      [reflexivity | left; reflexivity].
Defined.

Lemma manifestExists_fetch_failure_witness :
  findings (calls_of (invoke (url := node_url) manifest_json (Rejected "ECONNREFUSED") false))
  = [mkFinding (Some page) (Some (element manifest_json))
       "Web app manifest file request failed"]
  /\ findings (calls (evaluate (url := node_url) (fun _ => Rejected "ECONNREFUSED")
                        (around manifest_json)))
     = [mkFinding (Some page) (Some (element manifest_json))
          "Web app manifest file request failed"].
Proof.
  destruct (manifestExists_fetch_failure (url := node_url) manifest_json
              "manifest.json" "https://example.com/manifest.json" "ECONNREFUSED")
    as (_ & Hone & _ & _ & Hall);
    [reflexivity | reflexivity | discriminate | reflexivity |].
  split; [exact Hone|].
  apply (Hall (fun _ => Rejected "ECONNREFUSED") (around manifest_json));
    reflexivity.
Defined.

Lemma manifestIsSpecified_monotone_witness :
  manifestIsSpecified
    (traverse (url := node_url) (fun _ => status 404) [element_link no_href] start) = true
  /\ manifestIsSpecified
       (evaluate (url := node_url) (fun _ => status 404)
          ([element_link no_href] ++ around manifest_json)) = true.
Proof.
  split; [reflexivity|].
  apply (manifestIsSpecified_monotone (url := node_url) (fun _ => status 404)
           [element_link no_href] (around manifest_json)).
  reflexivity.
Defined.

Lemma manifestExists_at_most_one_finding_witness :
  attributes (element capitalised) !! "rel" = Some "Manifest"
  /\ findings (calls_of (invoke (url := node_url) capitalised (status 404) false)) = []
  /\ state_after (invoke (url := node_url) capitalised (status 404) false) = false.
Proof.
  split; [reflexivity|].
  destruct (manifestExists_at_most_one_finding (url := node_url) capitalised
              (status 404) false) as (_ & Hother).
  destruct Hother as (_ & Hnone & _ & Hstate); [discriminate|].
  split; [exact Hnone | exact Hstate].
Defined.

(** ** A document with two manifest links

    The second link arrives while the fetch for the first is still pending: it
    is reported as a duplicate at once, the first is reported when its fetch
    settles with 404, and nothing is reported at the end. *)
Example two_manifest_links :
  findings
    (calls
       (evaluate (url := node_url) (fun _ => status 404)
          [element_link manifest_json; element_link cdn_manifest; fetch_settles 0]))
  = [mkFinding (Some page) (Some (element cdn_manifest))
       "Web app manifest already specified";
     mkFinding (Some page) (Some (element manifest_json))
       "Web app manifest file could not be fetched (status code: 404)"]
  /\ fetched
       (calls
          (evaluate (url := node_url) (fun _ => status 404)
             [element_link manifest_json; element_link cdn_manifest; fetch_settles 0]))
     = ["https://example.com/manifest.json"].
Proof. split; by vm_compute. Qed.

(** ** Instances of the further properties *)

Lemma evaluate_schedule_independent_witness :
  links [element_link manifest_json; element_link cdn_manifest; fetch_settles 0]
  = links [element_link manifest_json; fetch_settles 0; element_link cdn_manifest]
  /\ findings
       (calls
          (evaluate (url := node_url) (fun _ => status 404)
             [element_link manifest_json; element_link cdn_manifest; fetch_settles 0]))
     ≡ₚ findings
          (calls
             (evaluate (url := node_url) (fun _ => status 404)
                [element_link manifest_json; fetch_settles 0; element_link cdn_manifest])).
Proof.
  split; [reflexivity|].
  apply (evaluate_schedule_independent (url := node_url) (fun _ => status 404)).
  reflexivity.
Defined.

Lemma evaluate_silent_iff_witness :
  findings (calls (evaluate (url := node_url) (fun _ => status 0) (around manifest_json)))
  = []
  /\ findings (calls (evaluate (url := node_url) (fun _ => status 404) (around malformed)))
     = [].
Proof.
  split.
  - apply (proj2 (evaluate_silent_iff (url := node_url) (fun _ => status 0)
                    (around manifest_json))).
    exists manifest_json, "manifest.json".
    split; [reflexivity|]. split; [reflexivity|]. split; [discriminate|].
    exists (mkNetworkData (Some (Integer 0))). split; [reflexivity|].
    right; right. exists 0, I. split; [reflexivity | left; reflexivity].
  - apply (proj2 (evaluate_silent_iff (url := node_url) (fun _ => status 404)
                    (around malformed))).
    exists malformed, "https://%zz@cdn.example.com/m.json".
    split; [reflexivity|]. split; [reflexivity|]. split; [discriminate|].
    exact I.
Defined.

Lemma rule_instance_serves_one_document_witness :
  manifest_links (around manifest_json) <> []
  /\ findings
       (calls
          (emit_traverse_end (fun _ => status 200)
             (traverse (url := node_url) (fun _ => status 200) [element_link cdn_manifest]
                (evaluate (url := node_url) (fun _ => status 200)
                   (around manifest_json)))))
     = findings (calls (evaluate (url := node_url) (fun _ => status 200)
                          (around manifest_json)))
       ++ [already_specified cdn_manifest].
Proof.
  split; [discriminate|].
  apply (rule_instance_serves_one_document (url := node_url) (fun _ => status 200)
           (around manifest_json) [element_link cdn_manifest]).
  discriminate.
Defined.

Lemma manifestExists_continuation_ignores_state_witness :
  exists target k,
    completion (manifestExists (url := node_url) manifest_json false)
    = Normal (Pending target k)
    /\ forall settled s,
         completion (k settled s) = Normal tt
         /\ state_after (k settled s) = s
         /\ forall s', calls_of (k settled s) = calls_of (k settled s').
Proof.
  eexists _, _. split; [reflexivity|].
  eapply (manifestExists_continuation_ignores_state (url := node_url)
            manifest_json false).
  reflexivity.
Defined.

Lemma manifestExists_findings_located_witness :
  request_failed manifest_json
    ∈ findings (calls_of (invoke (url := node_url) manifest_json
                            (Rejected "ETIMEDOUT") false))
  /\ request_failed manifest_json
     = mkFinding (Some page) (Some (element manifest_json))
         (message (request_failed manifest_json)).
Proof.
  assert (Hin : request_failed manifest_json
                  ∈ findings (calls_of (invoke (url := node_url) manifest_json
                                          (Rejected "ETIMEDOUT") false))).
  { apply list_elem_of_singleton. reflexivity. }
  split; [exact Hin|].
  apply (manifestExists_findings_located (url := node_url) manifest_json
           (Rejected "ETIMEDOUT") false (request_failed manifest_json) Hin).
Defined.

Lemma manifestExists_status_code_witness :
  findings (calls_of (invoke (url := node_url) manifest_json (status 503) false))
  = [mkFinding (Some page) (Some (element manifest_json))
       "Web app manifest file could not be fetched (status code: 503)"]
  /\ findings (calls_of (invoke (url := node_url) manifest_json (status 200) false)) = [].
Proof.
  destruct (manifestExists_status_code (url := node_url) manifest_json "manifest.json"
              "https://example.com/manifest.json")
    as (Hcode & _ & _ & _ & _ & _ & H200);
    [reflexivity | reflexivity | discriminate | reflexivity |].
  split; [|exact H200].
  apply (Hcode 503 I); lia.
Defined.
